(** * finance_analyzer: the forecast endpoint of [app.py]

    A shallow embedding of the record validator (the CSV loop of
    [forecast]) and of the forecast engine ([generate_forecast]), with the
    properties of the specification stated over them.

    Conventions of the model.
    - Text is a byte string; [str.lower] and [str.strip] act on the ASCII
      range.
    - [csv.reader] is outside the repository: the validator starts from the
      rows it yields, each a list of fields.
    - The builtins [int] and [float] are parameters of the validator.
    - A Python [float] is an exact rational ([Qc]); rounding, infinities and
      NaN are not represented.
    - [sklearn.linear_model.LinearRegression] is ordinary least squares with
      an intercept, computed the way the library does (centre, solve with the
      minimum-norm solution, recover the intercept), in exact arithmetic. *)

From Stdlib Require Import QArith Qcanon Ascii.
From stdpp Require Import gmap strings list sorting numbers.

Local Open Scope string_scope.
Local Open Scope list_scope.
Local Open Scope Z_scope.

(** ** Python builtins used by the endpoint *)

Module Py.

Definition is_upper (c : ascii) : bool :=
  let n := nat_of_ascii c in (65 <=? n)%nat && (n <=? 90)%nat.

Definition lower_char (c : ascii) : ascii :=
  if is_upper c then ascii_of_nat (nat_of_ascii c + 32) else c.

(** [s.lower()] *)
Fixpoint lower (s : string) : string :=
  match s with
  | EmptyString => EmptyString
  | String c r => String (lower_char c) (lower r)
  end.

(** [str.isspace] on one character: tab, newline, vertical tab, form feed,
    carriage return, the four separators 0x1c..0x1f, and the space. *)
Definition is_space (c : ascii) : bool :=
  let n := nat_of_ascii c in
  ((9 <=? n)%nat && (n <=? 13)%nat) || ((28 <=? n)%nat && (n <=? 32)%nat).

Fixpoint lstrip (s : string) : string :=
  match s with
  | EmptyString => EmptyString
  | String c r => if is_space c then lstrip r else s
  end.

(** Removes trailing whitespace: a character is dropped when it is
    whitespace and nothing is left after it. *)
Fixpoint rstrip (s : string) : string :=
  match s with
  | EmptyString => EmptyString
  | String c r =>
      match rstrip r with
      | EmptyString => if is_space c then EmptyString else String c EmptyString
      | r' => String c r'
      end
  end.

(** [s.strip()] *)
Definition strip (s : string) : string := rstrip (lstrip s).

(** [sum(xs)] over floats: the accumulator starts at [0]. *)
Definition sum (xs : list Qc) : Qc := foldl Qcplus (Q2Qc 0) xs.

(** [max(xs)] over integers; [None] is the [ValueError] of an empty
    argument. *)
Definition max (xs : list Z) : option Z :=
  match xs with
  | [] => None
  | x :: r => Some (foldl Z.max x r)
  end.

(** [sorted(xs)] over integers. *)
Definition sorted (xs : list Z) : list Z := merge_sort Z.le xs.

(** [range(a, a + n)] *)
Definition range_from (a n : Z) : list Z := seqZ a n.

End Py.

(** ** Data model *)

(** One validated input row: [{'category': .., 'amount': .., 'month': ..}]. *)
Record observation (num : Type) : Type := Obs {
  month : Z;
  category : string;
  amount : num
}.
Arguments Obs {num} _ _ _.
Arguments month {num} _.
Arguments category {num} _.
Arguments amount {num} _.

(** The rejections of the CSV part of [forecast], one constructor per
    [return jsonify({'error': ...}), 400]. *)
Inductive error : Type :=
| SchemaError                                   (* 'CSV file must have headers: month,category,amount' *)
| InvalidRow (cat month_str amount_str : string) (* 'Invalid month or amount for category ..: .., ..' *)
| NoData                                        (* 'No valid data found in CSV file' *)
| InsufficientHistory (found : nat)             (* 'At least 3 months of data required, but only .. months found' *)
| BadSalary                                     (* 'Salary must be a positive number' *)
| BadHorizon                                    (* 'Forecast months must be a positive number' *)
| ProcessingError.                              (* 'Error processing CSV file: ..', the [except Exception] *)

(** ** Record validator: lines 57-91 of [forecast] *)

Section Validator.

Context {num : Type}.
(** [int(month_str)] and [float(amount_str)]; [None] is [ValueError]. *)
Variable parse_int : string → option Z.
Variable parse_float : string → option num.

(** Line 58, negated: the header is the expected one. *)
Definition header_ok (headers : list string) : bool :=
  match headers with
  | [h0; h1; h2] =>
      bool_decide (Py.lower h0 = "month")
      && bool_decide (Py.lower h1 = "category")
      && bool_decide (Py.lower h2 = "amount")
  | _ => false
  end.

(** What one iteration of the row loop does. *)
Inductive row_outcome : Type :=
| Skipped
| Aborted (e : error)
| Parsed (o : observation num).

(** Lines 66-83, one row. *)
Definition parse_row (row : list string) : row_outcome :=
  match row with
  | [month_str; category; amount_str] =>
      let month_str := Py.strip month_str in
      let category := Py.strip category in
      let amount_str := Py.strip amount_str in
      if bool_decide (category = EmptyString) || bool_decide (month_str = EmptyString)
      then Skipped
      else
        match parse_int month_str with
        | None => Aborted (InvalidRow category month_str amount_str)
        | Some month =>
            match parse_float amount_str with
            | None => Aborted (InvalidRow category month_str amount_str)
            | Some amount => Parsed (Obs month category amount)
            end
        end
  | _ => Skipped
  end.

(** The state of the loop: [all_data] and [months_found]. *)
Definition loop_state : Type := list (observation num) * gset Z.

(** Lines 65-84: the loop over the data rows. *)
Fixpoint parse_rows (rows : list (list string)) (st : loop_state)
  : error + loop_state :=
  match rows with
  | [] => inr st
  | row :: rest =>
      match parse_row row with
      | Skipped => parse_rows rest st
      | Aborted e => inl e
      | Parsed o => parse_rows rest (st.1 ++ [o], {[ month o ]} ∪ st.2)
      end
  end.

(** Lines 57-91. The first row is the header; an input without one makes
    [next(csv_reader)] raise, which the handler reports as a processing
    error. *)
Definition validate (rows : list (list string)) : error + list (observation num) :=
  match rows with
  | [] => inl ProcessingError
  | headers :: data_rows =>
      if negb (header_ok headers) then inl SchemaError
      else
        match parse_rows data_rows ([], ∅) with
        | inl e => inl e
        | inr (all_data, months_found) =>
            match all_data with
            | [] => inl NoData
            | _ :: _ =>
                if bool_decide (size months_found < 3)%nat
                then inl (InsufficientHistory (size months_found))
                else inr all_data
            end
        end
  end.

End Validator.

(** ** Forecast engine: [generate_forecast], lines 110-176 *)

(** A value stored in a month's dictionary: a Python [int] or a [float]. *)
Inductive value : Type :=
| VInt (z : Z)
| VNum (q : Qc).

(** The number a value stands for, as arithmetic sees it. *)
Definition num_of (v : value) : Qc :=
  match v with
  | VInt z => Qc_of_Z z
  | VNum q => q
  end.

(** [month_data]: one dictionary holds the fields ['month'] and ['savings']
    and one key per category. *)
Abbreviation summary := (gmap string value).

Abbreviation obs := (observation Qc).

(** *** The regression of scikit-learn, in exact arithmetic *)

Module LinearRegression.

Record model : Type := Model { coef : Qc; intercept : Qc }.

Definition mean (xs : list Qc) : Qc :=
  (Py.sum xs / Qc_of_Z (Z.of_nat (length xs)))%Qc.

(** [fit(X, y)]: the columns are centred, the slope solves the least
    squares problem on the centred data (the minimum-norm solution, which
    is [0] when the centred column vanishes), and the intercept is
    [y_offset - X_offset * coef]. *)
Definition fit (X : list Z) (y : list Qc) : model :=
  let xs := Qc_of_Z <$> X in
  let X_offset := mean xs in
  let y_offset := mean y in
  let xc := (λ x, x - X_offset)%Qc <$> xs in
  let yc := (λ v, v - y_offset)%Qc <$> y in
  let sxx := Py.sum ((λ x, x * x)%Qc <$> xc) in
  let sxy := Py.sum (zip_with Qcmult xc yc) in
  let coef := if decide (sxx = Q2Qc 0) then Q2Qc 0 else (sxy / sxx)%Qc in
  Model coef (y_offset - X_offset * coef)%Qc.

(** [predict([[m]])[0]] *)
Definition predict (md : model) (m : Z) : Qc :=
  (Qc_of_Z m * coef md + intercept md)%Qc.

End LinearRegression.

(** *** The two passes *)

(** [[item for item in data if item['category'] == category and
    item['month'] == month]] *)
Definition category_items (data : list obs) (c : string) (m : Z) : list obs :=
  filter (λ item, category item = c ∧ month item = m) data.

(** [[item for item in data if item['category'] == category]] *)
Definition category_data (data : list obs) (c : string) : list obs :=
  filter (λ item, category item = c) data.

(** Lines 149-151 on an insertion-ordered dictionary keyed by
    [(month, category)]: a missing key starts at [0], then the amount is
    added. *)
Fixpoint sums_add (key : Z * string) (a : Qc) (sums : list ((Z * string) * Qc))
  : list ((Z * string) * Qc) :=
  match sums with
  | [] => [(key, (Q2Qc 0 + a)%Qc)]
  | (k, v) :: rest =>
      if decide (k = key) then (k, (v + a)%Qc) :: rest
      else (k, v) :: sums_add key a rest
  end.

(** Lines 146-151 *)
Definition monthly_category_sums (items : list obs) : list ((Z * string) * Qc) :=
  foldl (λ sums item, sums_add (month item, category item) (amount item) sums) [] items.

(** Lines 154-159: the points [X], [y] handed to the regression, in the
    order of the dictionary. *)
Definition category_series (data : list obs) (c : string) : list (Z * Qc) :=
  omap (λ '((m, c'), a), if decide (c' = c) then Some (m, a) else None)
       (monthly_category_sums (category_data data c)).

(** [max(0, float(p))]: the first argument is kept unless the second is
    strictly greater. *)
Definition clamp (p : Qc) : value :=
  if decide (Q2Qc 0 < p)%Qc then VNum p else VInt 0.

(** Lines 161-169 *)
Definition predicted_amount (data : list obs) (c : string) (m : Z) : value :=
  let pts := category_series data c in
  let md := LinearRegression.fit (pts.*1) (pts.*2) in
  clamp (LinearRegression.predict md m).

(** The state of a loop over the categories: [month_data] and
    [total_expense]. *)
Definition month_state : Type := summary * Qc.

Definition initial_state (m : Z) : month_state :=
  (<["savings" := VInt 0]> (<["month" := VInt m]> ∅), Q2Qc 0).

(** Lines 121-126, one category of a historical month. *)
Definition historical_step (data : list obs) (m : Z) (st : month_state) (c : string)
  : month_state :=
  match category_items data c m with
  | [] => st
  | items =>
      let amount := Py.sum (amount <$> items) in
      (<[c := VNum amount]> st.1, (st.2 + amount)%Qc)
  end.

(** Lines 118-128 *)
Definition historical_summary (data : list obs) (categories : list string)
    (salary : Qc) (m : Z) : summary :=
  let st := foldl (historical_step data m) (initial_state m) categories in
  <["savings" := VNum (salary - st.2)%Qc]> st.1.

(** Lines 139-171, one category of a future month. *)
Definition future_step (data : list obs) (m : Z) (st : month_state) (c : string)
  : month_state :=
  match category_data data c with
  | [] => st
  | _ :: _ =>
      let p := predicted_amount data c m in
      (<[c := p]> st.1, (st.2 + num_of p)%Qc)
  end.

(** Lines 136-173 *)
Definition future_summary (data : list obs) (categories : list string)
    (salary : Qc) (m : Z) : summary :=
  let st := foldl (future_step data m) (initial_state m) categories in
  <["savings" := VNum (salary - st.2)%Qc]> st.1.

(** Line 114: [sorted(list(set(item['month'] for item in data)))] *)
Definition historical_months (data : list obs) : list Z :=
  Py.sorted (elements (list_to_set (month <$> data) : gset Z)).

(** Lines 117-129 *)
Definition historical_pass (data : list obs) (categories : list string)
    (salary : Qc) : list summary :=
  historical_summary data categories salary <$> historical_months data.

(** Lines 132-174; [None] is the exception of [max] on no month at all. *)
Definition future_pass (data : list obs) (categories : list string)
    (salary : Qc) (forecast_months : Z) : option (list summary) :=
  match Py.max (historical_months data) with
  | None => None
  | Some last =>
      let next_month := last + 1 in
      Some (future_summary data categories salary
              <$> Py.range_from next_month forecast_months)
  end.

Definition generate_forecast (data : list obs) (categories : list string)
    (salary : Qc) (forecast_months : Z) : option (list summary) :=
  let result := historical_pass data categories salary in
  match future_pass data categories salary forecast_months with
  | None => None
  | Some future => Some (result ++ future)
  end.

(** ** The endpoint, from decoded rows and parameters to its answer *)

(** Line 94: [list(set(item['category'] for item in all_data))] *)
Definition categories_of (all_data : list obs) : list string :=
  elements (list_to_set (category <$> all_data) : gset string).

Section Endpoint.

Variable parse_int : string → option Z.
Variable parse_float : string → option Qc.

(** Lines 29, 45 and 51-105 of [forecast]; the form and file lookups of
    the request belong to the caller. *)
Definition forecast (rows : list (list string)) (salary : Qc) (forecast_months : Z)
  : error + (list string * list summary) :=
  if decide (salary ≤ Q2Qc 0)%Qc then inl BadSalary
  else if decide (forecast_months ≤ 0) then inl BadHorizon
  else
    match validate parse_int parse_float rows with
    | inl e => inl e
    | inr all_data =>
        let categories := categories_of all_data in
        match generate_forecast all_data categories salary forecast_months with
        | None => inl ProcessingError
        | Some forecast_data => inr (categories, forecast_data)
        end
    end.

End Endpoint.

(** ** A decimal reading of [int] and [float]

    The plain literals of both builtins (an optional sign, digits, and for
    [float] an optional fraction), to run the model on concrete files. *)

Module Decimal.

Definition digit (c : ascii) : option Z :=
  let n := Z.of_nat (nat_of_ascii c) in
  if (48 <=? n) && (n <=? 57) then Some (n - 48) else None.

(** The digits of [s] read after [acc]; the count of digits is kept. *)
Fixpoint digits (s : string) (acc : Z) (len : nat) : option (Z * nat) :=
  match s with
  | EmptyString => Some (acc, len)
  | String c r =>
      match digit c with
      | Some d => digits r (10 * acc + d) (S len)
      | None => None
      end
  end.

Definition unsigned (s : string) : option Z :=
  match digits s 0 0%nat with
  | Some (n, S _) => Some n
  | _ => None
  end.

Definition signed {A} (neg : A → A) (body : string → option A) (s : string) : option A :=
  match s with
  | String "-" r => neg <$> body r
  | String "+" r => body r
  | _ => body s
  end.

Definition parse_int : string → option Z := signed Z.opp unsigned.

(** The part of [s] before the first dot, and the part after it if there
    is a dot. *)
Fixpoint split_dot (s : string) : string * option string :=
  match s with
  | EmptyString => (EmptyString, None)
  | String "." r => (EmptyString, Some r)
  | String c r => let '(a, b) := split_dot r in (String c a, b)
  end.

Definition unsigned_float (s : string) : option Qc :=
  let '(whole, frac) := split_dot s in
  match digits whole 0 0%nat, digits (default EmptyString frac) 0 0%nat with
  | Some (w, lw), Some (f, lf) =>
      if bool_decide (lw + lf = 0)%nat then None
      else Some (Qc_of_Z w + Qc_of_Z f / Qc_of_Z (10 ^ Z.of_nat lf))%Qc
  | _, _ => None
  end.

Definition parse_float : string → option Qc := signed Qcopp unsigned_float.

End Decimal.

(** ** Vocabulary of the properties *)

(** A row the loop passes over: the wrong number of fields, or an empty
    month or category once trimmed. *)
Definition lenient_row (row : list string) : Prop :=
  length row ≠ 3%nat ∨
  ∃ m c a, row = [m; c; a] ∧ (Py.strip m = EmptyString ∨ Py.strip c = EmptyString).

(** A row that is kept by the leniencies and whose month or amount does not
    parse. *)
Definition offending_row {num} (parse_int : string → option Z)
    (parse_float : string → option num) (row : list string) : Prop :=
  ∃ m c a, row = [m; c; a] ∧ Py.strip m ≠ EmptyString ∧ Py.strip c ≠ EmptyString ∧
    (parse_int (Py.strip m) = None ∨ parse_float (Py.strip a) = None).

(** The error that names a row: its trimmed category, month and amount. *)
Definition row_error (row : list string) : error :=
  match row with
  | [m; c; a] => InvalidRow (Py.strip c) (Py.strip m) (Py.strip a)
  | _ => ProcessingError
  end.

(** The distinct months of a list of observations. *)
Definition distinct_months {num} (all_data : list (observation num)) : gset Z :=
  list_to_set (month <$> all_data).

(** What the historical pass writes for a category in month [m], if the
    category has items there: the sum of their amounts. *)
Definition historical_entry (data : list obs) (m : Z) (c : string) : option value :=
  match category_items data c m with
  | [] => None
  | items => Some (VNum (Py.sum (amount <$> items)))
  end.

(** What the future pass writes for a category in month [m], if the
    category has data at all: its clamped prediction. *)
Definition future_entry (data : list obs) (m : Z) (c : string) : option value :=
  match category_data data c with
  | [] => None
  | _ :: _ => Some (predicted_amount data c m)
  end.

(** The shape both loops over the categories share: write the entry under
    the category's name and add it to the total. *)
Definition record_step (entry : string → option value) (st : month_state) (c : string)
  : month_state :=
  match entry c with
  | None => st
  | Some v => (<[c := v]> st.1, (st.2 + num_of v)%Qc)
  end.

(** The sum of what the categories wrote. *)
Definition entries_total (entry : string → option value) (cats : list string) : Qc :=
  Py.sum (omap (λ c, num_of <$> entry c) cats).

(** The values under the key ['month'], along the timeline. *)
Definition month_values (out : list summary) : list (option value) :=
  (λ d, d !! "month") <$> out.

(** Each summary carries the month that follows the one before it. *)
Definition consecutive_months (out : list summary) : Prop :=
  ∀ i d d', out !! i = Some d → out !! S i = Some d' →
    ∃ m, d !! "month" = Some (VInt m) ∧ d' !! "month" = Some (VInt (m + 1)).

(** The sum of the amounts a summary holds under the names of the
    categories. *)
Definition category_total (cats : list string) (d : summary) : Qc :=
  Py.sum (omap (λ c, num_of <$> d !! c) cats).

(** [savings == income - sum(category values)] on one summary. *)
Definition savings_balanced (salary : Qc) (cats : list string) (d : summary) : Prop :=
  d !! "savings" = Some (VNum (salary - category_total cats d)%Qc).

(** The timeline of an answer of the endpoint; a rejection has none. *)
Definition timeline (r : error + (list string * list summary)) : list summary :=
  match r with
  | inr (_, out) => out
  | inl _ => []
  end.

(** The category list of an answer. *)
Definition answer_categories (r : error + (list string * list summary))
  : option (list string) :=
  match r with
  | inr (cats, _) => Some cats
  | inl _ => None
  end.

(** What the [i]-th summary of a timeline holds under the key [k], read as
    a fraction. *)
Definition fraction_at (out : list summary) (i : nat) (k : string) : option Q :=
  d ← out !! i; v ← d !! k; Some (this (num_of v)).

(** The sum a dictionary of sums holds under a key, if any. *)
Fixpoint sums_get (key : Z * string) (sums : list ((Z * string) * Qc)) : option Qc :=
  match sums with
  | [] => None
  | (k, v) :: rest => if decide (k = key) then Some v else sums_get key rest
  end.

(** The items that fall under a key of the dictionary of sums. *)
Definition keyed_items (key : Z * string) (items : list obs) : list obs :=
  filter (λ item, (month item, category item) = key) items.

(** The observation a row adds to [all_data], if the row is kept and
    parses. *)
Definition row_observation {num} (parse_int : string → option Z)
    (parse_float : string → option num) (row : list string)
  : option (observation num) :=
  match parse_row parse_int parse_float row with
  | Parsed o => Some o
  | _ => None
  end.

(** The observations of the rows, in the order of the rows. *)
Definition kept_rows {num} (parse_int : string → option Z)
    (parse_float : string → option num) (rows : list (list string))
  : list (observation num) :=
  omap (row_observation parse_int parse_float) rows.

(** The amounts of a list of observations, added up. *)
Definition spent (items : list obs) : Qc := Py.sum (amount <$> items).







(** ** The validator *)

Section ValidatorFacts.

Context {num : Type}.
Variable parse_int : string → option Z.
Variable parse_float : string → option num.

Local Abbreviation row_of := (parse_row parse_int parse_float).
Local Abbreviation run := (parse_rows parse_int parse_float).
Local Abbreviation checked := (validate parse_int parse_float).
Local Abbreviation offending := (offending_row parse_int parse_float).

Lemma header_ok_spec headers :
  header_ok headers = true ↔
  ∃ h0 h1 h2, headers = [h0; h1; h2] ∧ Py.lower h0 = "month" ∧
    Py.lower h1 = "category" ∧ Py.lower h2 = "amount".
Proof.
  split.
  - destruct headers as [|h0 [|h1 [|h2 [|? ?]]]]; simpl; try discriminate.
    rewrite !andb_true_iff, !bool_decide_eq_true.
    intros [[? ?] ?]. by exists h0, h1, h2.
  - intros (h0 & h1 & h2 & -> & E0 & E1 & E2). simpl.
    by rewrite !andb_true_iff, !bool_decide_eq_true.
Qed.

Lemma parse_row_lenient row : lenient_row row → row_of row = Skipped.
Proof.
  intros [Hlen | (m & c & a & -> & Hempty)].
  - by destruct row as [|? [|? [|? [|? ?]]]].
  - simpl. destruct Hempty as [-> | ->].
    + by rewrite orb_true_r.
    + done.
Qed.

Lemma parse_row_offending row :
  offending row → row_of row = Aborted (row_error row).
Proof.
  intros (m & c & a & -> & Hm & Hc & Hbad). simpl.
  rewrite !bool_decide_eq_false_2 by done. simpl.
  destruct Hbad as [-> | Ha]; [done|].
  destruct (parse_int (Py.strip m)); by rewrite ?Ha.
Qed.

Lemma parse_row_aborted row e :
  row_of row = Aborted e → offending row ∧ e = row_error row.
Proof.
  destruct row as [|m [|c [|a [|? ?]]]]; simpl; try discriminate.
  destruct (bool_decide (Py.strip c = EmptyString)) eqn:Hc; [discriminate|].
  destruct (bool_decide (Py.strip m = EmptyString)) eqn:Hm; [discriminate|]. simpl.
  apply bool_decide_eq_false in Hc, Hm.
  destruct (parse_int (Py.strip m)) eqn:Hi.
  - destruct (parse_float (Py.strip a)) eqn:Hf; [discriminate|].
    intros [= <-]. split; [|done]. exists m, c, a. auto.
  - intros [= <-]. split; [|done]. exists m, c, a. auto.
Qed.

(** The loop over a concatenation runs the first part, then the second
    from the state the first one left. *)
Lemma parse_rows_app pre post st :
  run (pre ++ post) st =
  match run pre st with
  | inl e => inl e
  | inr st' => run post st'
  end.
Proof.
  revert st. induction pre as [|row pre IH]; intros st; simpl; [done|].
  destruct (row_of row); auto.
Qed.

(** Whatever the loop rejects, it rejects for a row of the input, and
    with the error that names this row. *)
Lemma parse_rows_aborted rows st e :
  run rows st = inl e →
  ∃ row, row ∈ rows ∧ offending row ∧ e = row_error row.
Proof.
  revert st. induction rows as [|row rows IH]; intros st; simpl; [discriminate|].
  destruct (row_of row) eqn:Hrow.
  - intros (r & ? & ?)%IH. exists r. split; [by right | done].
  - intros [= ->]. apply parse_row_aborted in Hrow as [? ?].
    exists row. split; [by left | done].
  - intros (r & ? & ?)%IH. exists r. split; [by right | done].
Qed.

(** [months_found] is the set of the months of [all_data], all along. *)
Lemma parse_rows_months rows st st' :
  run rows st = inr st' →
  st.2 = distinct_months st.1 → st'.2 = distinct_months st'.1.
Proof.
  revert st. induction rows as [|row rows IH]; intros st; simpl.
  - by intros [= <-].
  - destruct (row_of row); [apply IH | discriminate |].
    intros Hrun Hinv. apply IH in Hrun; [done|]. simpl.
    unfold distinct_months in *.
    rewrite Hinv, fmap_app, list_to_set_app_L. simpl.
    rewrite (right_id_L ∅ (∪)). apply (comm_L (∪)).
Qed.

Lemma validate_unfold headers data_rows :
  header_ok headers = true →
  checked (headers :: data_rows) =
  match run data_rows ([], ∅) with
  | inl e => inl e
  | inr (all_data, _) =>
      if decide (all_data = []) then inl NoData
      else if decide (size (distinct_months all_data) < 3)%nat
           then inl (InsufficientHistory (size (distinct_months all_data)))
           else inr all_data
  end.
Proof.
  intros Hh. unfold validate. rewrite Hh. simpl.
  destruct (run data_rows ([], ∅)) as [e | [all_data mf]] eqn:Hrun; [done|].
  apply parse_rows_months in Hrun; [|done]. simpl in Hrun. subst mf.
  destruct all_data; [done|].
  rewrite decide_False by done.
  rewrite decide_bool_decide. by destruct (bool_decide _).
Qed.

End ValidatorFacts.

Section ValidatorClaims.

Context {num : Type}.
Variable parse_int : string → option Z.
Variable parse_float : string → option num.

Local Abbreviation run := (parse_rows parse_int parse_float).
Local Abbreviation checked := (validate parse_int parse_float).
Local Abbreviation offending := (offending_row parse_int parse_float).

(** C7. A row with a field count other than 3, or with an empty month or
    category once trimmed, is passed over: the loop and the validation give
    what they give without it. A three-field row that is not passed over
    and whose trimmed month is no integer or whose trimmed amount is no
    number aborts the validation whatever the other rows are: the answer
    is the error naming the category, month and amount texts of an
    offending row, and it names this very row when the rows before it went
    through. *)
Theorem C7_lenient_rows_skipped_offending_rows_abort
    (headers : list string) (pre : list (list string)) (row : list string)
    (post : list (list string)) :
  header_ok headers = true →
  (lenient_row row →
     (∀ st, run (pre ++ row :: post) st = run (pre ++ post) st) ∧
     checked (headers :: pre ++ row :: post) = checked (headers :: pre ++ post)) ∧
  (offending row →
     (∃ r, r ∈ pre ++ [row] ∧ offending r ∧
           checked (headers :: pre ++ row :: post) = inl (row_error r)) ∧
     (∀ st, run pre ([], ∅) = inr st →
            checked (headers :: pre ++ row :: post) = inl (row_error row))).
Proof.
  intros Hh. split.
  - intros Hskip.
    assert (∀ st, run (pre ++ row :: post) st = run (pre ++ post) st) as Hrun.
    { intros st. rewrite !parse_rows_app.
      destruct (run pre st); [done|]. simpl.
      by rewrite parse_row_lenient. }
    split; [done|]. by rewrite !validate_unfold, Hrun.
  - intros Hbad. split.
    + rewrite validate_unfold by done. rewrite parse_rows_app.
      destruct (run pre ([], ∅)) as [e | st] eqn:Hpre.
      * apply parse_rows_aborted in Hpre as (r & Hin & Hr & ->).
        exists r. split; [|done]. apply elem_of_app. by left.
      * simpl. rewrite parse_row_offending by done.
        exists row. split; [|done]. apply elem_of_app. right. by left.
    + intros st Hpre. rewrite validate_unfold by done.
      rewrite parse_rows_app, Hpre. simpl. by rewrite parse_row_offending.
Qed.

(** C8. The header is accepted exactly when it has three fields whose
    lowercase forms are month, category and amount in this order, and the
    answer is the schema error exactly when the header is not accepted,
    whatever data rows follow. *)
Theorem C8_header_schema (headers : list string) (data_rows : list (list string)) :
  (header_ok headers = true ↔
     ∃ h0 h1 h2, headers = [h0; h1; h2] ∧ Py.lower h0 = "month" ∧
       Py.lower h1 = "category" ∧ Py.lower h2 = "amount") ∧
  (checked (headers :: data_rows) = inl SchemaError ↔ header_ok headers = false).
Proof.
  split; [apply header_ok_spec|].
  destruct (header_ok headers) eqn:Hh.
  - split; [|discriminate]. rewrite validate_unfold by done.
    destruct (run data_rows ([], ∅)) as [e | [all_data mf]] eqn:Hrun.
    + apply parse_rows_aborted in Hrun as (r & _ & (m & c & a & -> & _) & ->).
      discriminate.
    + repeat case_decide; discriminate.
  - split; [done|]. intros _. unfold validate. by rewrite Hh.
Qed.

End ValidatorClaims.

(** The header [Month,Cat,Amt] is a schema error, whatever follows it. *)
Lemma C8_header_schema_witness :
  validate Decimal.parse_int Decimal.parse_float
    [["Month"; "Cat"; "Amt"]; ["1"; "rent"; "5"]] = inl SchemaError.
Proof.
  apply (C8_header_schema Decimal.parse_int Decimal.parse_float).
  reflexivity.
Defined.

Lemma C7_lenient_rows_skipped_offending_rows_abort_witness :
  let parsed := validate Decimal.parse_int Decimal.parse_float in
  let headers := ["MONTH"; "Category"; "amount"] in
  let pre := [["1"; "rent"; "5"]] in
  let post := [["y"; "fuel"; "1"]] in
  parsed (headers :: pre ++ ["3"; "  "; "4"] :: post) = parsed (headers :: pre ++ post) ∧
  parsed (headers :: pre ++ [] :: post) = parsed (headers :: pre ++ post) ∧
  parsed (headers :: pre ++ [" 2x "; " food"; "7 "] :: post)
    = inl (InvalidRow "food" "2x" "7").
Proof.
  intros parsed headers pre post. split; [|split].
  - apply (C7_lenient_rows_skipped_offending_rows_abort
             Decimal.parse_int Decimal.parse_float headers pre
             ["3"; "  "; "4"] post eq_refl).
    right. exists "3", "  ", "4". split; [done|]. by right.
  - apply (C7_lenient_rows_skipped_offending_rows_abort
             Decimal.parse_int Decimal.parse_float headers pre [] post eq_refl).
    by left.
  - apply (C7_lenient_rows_skipped_offending_rows_abort
             Decimal.parse_int Decimal.parse_float headers pre
             [" 2x "; " food"; "7 "] post eq_refl)
      with (st := ([Obs 1 "rent" (Qc_of_Z 5)], {[ 1 ]} ∪ ∅)).
    + exists " 2x ", " food", "7 ".
      split; [done|]. split; [discriminate|]. split; [discriminate|]. by left.
    + unfold parse_rows, parse_row. simpl. repeat f_equal.
      apply Qc_is_canon. reflexivity.
Defined.

(** ** The endpoint's rejections *)

Section EndpointClaims.

Variable parse_int : string → option Z.
Variable parse_float : string → option Qc.

Lemma forecast_rejected rows salary forecast_months e :
  validate parse_int parse_float rows = inl e →
  ∃ e', forecast parse_int parse_float rows salary forecast_months = inl e' ∧
    ((Q2Qc 0 < salary)%Qc → 0 < forecast_months → e' = e).
Proof.
  intros Hv. unfold forecast. rewrite Hv.
  destruct (decide (salary ≤ Q2Qc 0)%Qc) as [Hs|Hs].
  - eexists. split; [done|]. intros Hpos. by apply Qclt_not_le in Hpos.
  - destruct (decide (forecast_months ≤ 0)).
    + eexists. split; [done|]. lia.
    + eexists. by split.
Qed.

(** C6. When the row loop ends with no valid row, the validation answers
    with the no-data error, although the count of distinct months (zero)
    is below 3 as well: this check comes first. When it ends with valid
    rows whose distinct months number fewer than 3, the answer is the
    insufficient-history error carrying that number. In both cases the
    endpoint returns an error and no forecast; with a positive salary and
    horizon it is that very error. *)
Theorem C6_no_data_before_insufficient_history
    (headers : list string) (data_rows : list (list string))
    (all_data : list obs) (months_found : gset Z)
    (salary : Qc) (forecast_months : Z) :
  header_ok headers = true →
  parse_rows parse_int parse_float data_rows ([], ∅) = inr (all_data, months_found) →
  (size (distinct_months all_data) < 3)%nat →
  let rejection :=
    if decide (all_data = []) then NoData
    else InsufficientHistory (size (distinct_months all_data)) in
  months_found = distinct_months all_data ∧
  validate parse_int parse_float (headers :: data_rows) = inl rejection ∧
  ∃ e, forecast parse_int parse_float (headers :: data_rows) salary forecast_months
         = inl e ∧
       ((Q2Qc 0 < salary)%Qc → 0 < forecast_months → e = rejection).
Proof.
  intros Hh Hrun Hfew rejection.
  assert (validate parse_int parse_float (headers :: data_rows) = inl rejection) as Hv.
  { rewrite validate_unfold, Hrun by done. subst rejection.
    case_decide; [done|]. by rewrite decide_True. }
  split; [|split; [done|]].
  - by apply parse_rows_months in Hrun.
  - by apply forecast_rejected.
Qed.

End EndpointClaims.

(** Two distinct months only: rejected, with the count. An empty table:
    rejected as having no data. *)
Lemma C6_no_data_before_insufficient_history_witness :
  let headers := ["month"; "category"; "amount"] in
  let two := [["1"; "rent"; "5"]; ["2"; "rent"; "5"]; ["2"; "food"; "1"]] in
  let none := [["1"; EmptyString; "5"]; []] in
  validate Decimal.parse_int Decimal.parse_float (headers :: two)
    = inl (InsufficientHistory 2) ∧
  validate Decimal.parse_int Decimal.parse_float (headers :: none) = inl NoData.
Proof.
  intros headers two none. split.
  - pose proof (C6_no_data_before_insufficient_history
                  Decimal.parse_int Decimal.parse_float headers two
                  [Obs 1 "rent" (Qc_of_Z 5); Obs 2 "rent" (Qc_of_Z 5);
                   Obs 2 "food" (Qc_of_Z 1)]
                  ({[ 2 ]} ∪ ({[ 2 ]} ∪ ({[ 1 ]} ∪ ∅))) (Qc_of_Z 100) 3 eq_refl) as H.
    destruct H as (_ & H & _).
    + unfold parse_rows, parse_row. simpl. repeat f_equal; by apply Qc_is_canon.
    + vm_compute. lia.
    + exact H.
  - pose proof (C6_no_data_before_insufficient_history
                  Decimal.parse_int Decimal.parse_float headers none
                  [] ∅ (Qc_of_Z 100) 3 eq_refl eq_refl) as H.
    destruct H as (_ & H & _).
    + vm_compute. lia.
    + exact H.
Defined.

(** ** Facts about the builtins *)

Lemma foldl_plus_sum (a : Qc) (xs : list Qc) :
  foldl Qcplus a xs = (a + Py.sum xs)%Qc.
Proof.
  unfold Py.sum. revert a. induction xs as [|y xs IH]; intros a; simpl.
  - ring.
  - rewrite IH, (IH (Q2Qc 0 + y)%Qc). ring.
Qed.

Lemma sum_cons (x : Qc) (xs : list Qc) : Py.sum (x :: xs) = (x + Py.sum xs)%Qc.
Proof. unfold Py.sum at 1. simpl. rewrite foldl_plus_sum. ring. Qed.

Lemma sum_nil : Py.sum [] = Q2Qc 0.
Proof. done. Qed.

Lemma foldl_max_bounds (x : Z) (r : list Z) :
  x ≤ foldl Z.max x r ∧ Forall (λ y, y ≤ foldl Z.max x r) r ∧
  foldl Z.max x r ∈ x :: r.
Proof.
  revert x. induction r as [|y r IH]; intros x; simpl.
  - split; [lia|]. split; [constructor | by left].
  - destruct (IH (Z.max x y)) as (Hle & Hall & Hin).
    split; [lia|]. split; [constructor; [lia | done]|].
    apply elem_of_cons in Hin as [Heq | Hin].
    + rewrite Heq. destruct (Z.max_spec x y) as [[_ ->] | [_ ->]].
      * right. by left.
      * by left.
    + right. by right.
Qed.

(** [max] returns an element that bounds all the others. *)
Lemma max_spec (xs : list Z) (last : Z) :
  Py.max xs = Some last → last ∈ xs ∧ ∀ x, x ∈ xs → x ≤ last.
Proof.
  destruct xs as [|x r]; simpl; [discriminate|]. intros [= <-].
  destruct (foldl_max_bounds x r) as (Hle & Hall & Hin).
  split; [done|]. intros y [-> | Hy]%elem_of_cons; [done|].
  rewrite list.Forall_forall in Hall. by apply Hall.
Qed.

Lemma max_is_Some (xs : list Z) : xs ≠ [] → is_Some (Py.max xs).
Proof. destruct xs; [done | by eexists]. Qed.

Lemma StronglySorted_le_lt (l : list Z) :
  StronglySorted Z.le l → NoDup l → StronglySorted Z.lt l.
Proof.
  induction 1 as [|x l Hsorted IH Hall]; intros Hnd; [constructor|].
  apply list.NoDup_cons in Hnd as [Hx Hnd].
  constructor; [by apply IH|].
  apply list.Forall_forall. intros y Hy.
  pose proof (proj1 (list.Forall_forall _ _) Hall y Hy).
  assert (x ≠ y) by (intros ->; done). lia.
Qed.

Lemma StronglySorted_seqZ (a n : Z) : StronglySorted Z.lt (seqZ a n).
Proof.
  destruct (decide (n ≤ 0)) as [Hn|Hn]; [rewrite seqZ_nil by done; constructor|].
  rewrite <-(Z2Nat.id n) by lia. generalize (Z.to_nat n) as k. clear.
  intros k. revert a. induction k as [|k IH]; intros a.
  - rewrite seqZ_nil by lia. constructor.
  - rewrite seqZ_cons by lia.
    replace (Z.pred (Z.of_nat (S k))) with (Z.of_nat k) by lia.
    constructor; [apply IH|].
    apply list.Forall_forall. intros y Hy%elem_of_seqZ. lia.
Qed.

(** ** The months of the timeline *)

Section Months.

Variable data : list obs.

Lemma historical_months_perm :
  historical_months data ≡ₚ elements (distinct_months data).
Proof. apply merge_sort_Permutation. Qed.

Lemma elem_of_historical_months (m : Z) :
  m ∈ historical_months data ↔ ∃ o, o ∈ data ∧ month o = m.
Proof.
  rewrite historical_months_perm, elem_of_elements.
  unfold distinct_months. rewrite elem_of_list_to_set, list_elem_of_fmap.
  split; [intros (o & -> & ?) | intros (o & ? & <-)]; by exists o.
Qed.

Lemma historical_months_length :
  length (historical_months data) = size (distinct_months data).
Proof. by rewrite historical_months_perm. Qed.

Lemma historical_months_sorted : StronglySorted Z.lt (historical_months data).
Proof.
  apply StronglySorted_le_lt.
  - apply StronglySorted_merge_sort; apply _.
  - rewrite historical_months_perm. apply NoDup_elements.
Qed.

Lemma historical_months_nonempty : data ≠ [] → historical_months data ≠ [].
Proof.
  destruct data as [|o rest] eqn:Hd; [done|]. intros _ Hnil.
  assert (month o ∈ historical_months (o :: rest)) as Hin.
  { rewrite <-Hd. apply elem_of_historical_months. exists o.
    rewrite Hd. split; [by left | done]. }
  rewrite Hnil in Hin. by apply elem_of_nil in Hin.
Qed.

End Months.

(** ** The loops over the categories *)

Lemma foldl_ext_step {A B} (f g : A → B → A) (l : list B) (a : A) :
  (∀ a b, f a b = g a b) → foldl f a l = foldl g a l.
Proof.
  intros Hfg. revert a. induction l as [|b l IH]; intros a; simpl; [done|].
  by rewrite Hfg, IH.
Qed.

Lemma historical_step_record data m st c :
  historical_step data m st c = record_step (historical_entry data m) st c.
Proof.
  unfold historical_step, record_step, historical_entry.
  by destruct (category_items data c m).
Qed.

Lemma future_step_record data m st c :
  future_step data m st c = record_step (future_entry data m) st c.
Proof.
  unfold future_step, record_step, future_entry.
  by destruct (category_data data c).
Qed.

Section RecordLoop.

Variable entry : string → option value.

(** After the loop, a key holds the entry of its category when the
    category was visited and has one, and is untouched otherwise. *)
Lemma record_loop_lookup (cats : list string) (st : month_state) (k : string) :
  (foldl (record_step entry) st cats).1 !! k =
  match (if decide (k ∈ cats) then entry k else None) with
  | Some v => Some v
  | None => st.1 !! k
  end.
Proof.
  revert st. induction cats as [|c cats IH]; intros st; cbn [foldl].
  - destruct (decide (k ∈ [])) as [Hin|_]; [|done]. by apply elem_of_nil in Hin.
  - rewrite IH. destruct (decide (k ∈ cats)) as [Hin|Hin].
    + destruct (decide (k ∈ c :: cats)) as [_|Hno]; [|by destruct Hno; right].
      destruct (entry k) eqn:Hk; [done|].
      unfold record_step. destruct (entry c) eqn:Hc; [|done]. cbn [fst].
      rewrite lookup_insert_ne; [done | congruence].
    + unfold record_step. destruct (decide (k = c)) as [->|Hne].
      * destruct (decide (c ∈ c :: cats)) as [_|Hno]; [|by destruct Hno; left].
        destruct (entry c); [|done]. cbn [fst]. by rewrite lookup_insert_eq.
      * destruct (decide (k ∈ c :: cats)) as [[?|?]%elem_of_cons|_]; [done..|].
        destruct (entry c); [|done]. cbn [fst]. by rewrite lookup_insert_ne.
Qed.

(** After the loop, the total has grown by the entries written. *)
Lemma record_loop_total (cats : list string) (st : month_state) :
  (foldl (record_step entry) st cats).2 = (st.2 + entries_total entry cats)%Qc.
Proof.
  unfold entries_total. revert st.
  induction cats as [|c cats IH]; intros st; simpl.
  - rewrite sum_nil. symmetry. apply Qcplus_0_r.
  - rewrite IH. unfold record_step. destruct (entry c) as [v|]; simpl; [|done].
    rewrite sum_cons. symmetry. apply Qcplus_assoc.
Qed.

(** The dictionary a pass finishes for month [m]. *)
Lemma finished_lookup (cats : list string) (salary : Qc) (m : Z) (k : string) :
  let st := foldl (record_step entry) (initial_state m) cats in
  (<["savings" := VNum (salary - st.2)%Qc]> st.1) !! k =
  if decide (k = "savings") then Some (VNum (salary - entries_total entry cats)%Qc)
  else match (if decide (k ∈ cats) then entry k else None) with
       | Some v => Some v
       | None => if decide (k = "month") then Some (VInt m) else None
       end.
Proof.
  intros st. subst st. destruct (decide (k = "savings")) as [->|Hk].
  - rewrite lookup_insert_eq, record_loop_total. simpl.
    by rewrite Qcplus_0_l.
  - rewrite lookup_insert_ne by done. rewrite record_loop_lookup.
    destruct (if decide (k ∈ cats) then entry k else None); [done|].
    unfold initial_state. simpl. rewrite lookup_insert_ne by done.
    destruct (decide (k = "month")) as [->|Hm].
    + by rewrite lookup_insert_eq.
    + rewrite lookup_insert_ne by done. apply lookup_empty.
Qed.

End RecordLoop.

Lemma historical_summary_lookup data cats salary m k :
  historical_summary data cats salary m !! k =
  if decide (k = "savings")
  then Some (VNum (salary - entries_total (historical_entry data m) cats)%Qc)
  else match (if decide (k ∈ cats) then historical_entry data m k else None) with
       | Some v => Some v
       | None => if decide (k = "month") then Some (VInt m) else None
       end.
Proof.
  unfold historical_summary.
  rewrite (foldl_ext_step _ _ _ _ (historical_step_record data m)).
  apply finished_lookup.
Qed.

Lemma future_summary_lookup data cats salary m k :
  future_summary data cats salary m !! k =
  if decide (k = "savings")
  then Some (VNum (salary - entries_total (future_entry data m) cats)%Qc)
  else match (if decide (k ∈ cats) then future_entry data m k else None) with
       | Some v => Some v
       | None => if decide (k = "month") then Some (VInt m) else None
       end.
Proof.
  unfold future_summary.
  rewrite (foldl_ext_step _ _ _ _ (future_step_record data m)).
  apply finished_lookup.
Qed.

(** ** The timeline *)

Lemma generate_forecast_Some data cats salary h :
  data ≠ [] →
  ∃ last, Py.max (historical_months data) = Some last ∧
    generate_forecast data cats salary h =
    Some (historical_pass data cats salary
          ++ (future_summary data cats salary <$> seqZ (last + 1) h)).
Proof.
  intros Hdata.
  destruct (max_is_Some (historical_months data)) as [last Hlast].
  { by apply historical_months_nonempty. }
  exists last. split; [done|].
  unfold generate_forecast, future_pass. by rewrite Hlast.
Qed.

Lemma month_values_of_months (f : Z → summary) (months : list Z) :
  (∀ m, f m !! "month" = Some (VInt m)) →
  month_values (f <$> months) = Some ∘ VInt <$> months.
Proof.
  intros Hf. unfold month_values. rewrite <-list_fmap_compose.
  apply list_fmap_ext. intros _ m _. simpl. apply Hf.
Qed.

(** C1, as the code has it. For observations that are not empty and
    categories none of which is named month, the forecast is returned, its
    length is the number of distinct historical months plus the horizon, and
    its month values are the distinct historical months in strictly
    ascending order (each one a month of some observation) followed by the
    consecutive months that start right after the largest of them; the
    whole sequence is strictly ascending. Between two historical months
    there may be a gap. *)
Theorem C1_timeline_months (data : list obs) (cats : list string)
    (salary : Qc) (h : Z) :
  data ≠ [] → "month" ∉ cats →
  ∃ out last,
    generate_forecast data cats salary h = Some out ∧
    Py.max (historical_months data) = Some last ∧
    length out = (size (distinct_months data) + Z.to_nat h)%nat ∧
    month_values out = Some ∘ VInt <$> (historical_months data ++ seqZ (last + 1) h) ∧
    StronglySorted Z.lt (historical_months data ++ seqZ (last + 1) h) ∧
    (∀ m, m ∈ historical_months data ↔ ∃ o, o ∈ data ∧ month o = m).
Proof.
  intros Hdata Hcats.
  destruct (generate_forecast_Some data cats salary h Hdata) as (last & Hlast & Hout).
  eexists _, last. split; [exact Hout|]. split; [done|].
  split; [|split; [|split]].
  - rewrite length_app, !length_fmap, length_seqZ.
    unfold historical_pass. by rewrite length_fmap, historical_months_length.
  - unfold month_values, historical_pass.
    rewrite !fmap_app. f_equal; apply month_values_of_months; intros m.
    + rewrite historical_summary_lookup.
      rewrite decide_False by done. by rewrite decide_False, decide_True.
    + rewrite future_summary_lookup.
      rewrite decide_False by done. by rewrite decide_False, decide_True.
  - apply StronglySorted_app_2.
    + intros x1 x2 Hx1 Hx2%elem_of_seqZ.
      apply max_spec in Hlast as [_ Hmax]. specialize (Hmax x1 Hx1). lia.
    + apply historical_months_sorted.
    + apply StronglySorted_seqZ.
  - apply elem_of_historical_months.
Qed.

Lemma C1_timeline_months_witness :
  let data := [Obs 4 "food" (Qc_of_Z 10); Obs 2 "rent" (Qc_of_Z 7);
               Obs 4 "rent" (Qc_of_Z 7); Obs 9 "food" (Qc_of_Z 12)] in
  ∃ out, generate_forecast data ["rent"; "food"] (Qc_of_Z 100) 2 = Some out ∧
    length out = 5%nat ∧
    month_values out =
      [Some (VInt 2); Some (VInt 4); Some (VInt 9); Some (VInt 10); Some (VInt 11)].
Proof.
  intros data.
  destruct (C1_timeline_months data ["rent"; "food"] (Qc_of_Z 100) 2)
    as (out & last & Hout & Hlast & Hlen & Hmonths & _).
  - discriminate.
  - by apply (bool_decide_unpack _).
  - exists out. split; [done|]. split.
    + rewrite Hlen. by vm_compute.
    + rewrite Hmonths. vm_compute in Hlast. injection Hlast as <-. by vm_compute.
Defined.

(** Months 1, 3 and 5 make a valid table, and the timeline 1, 3, 5, 6 that
    the endpoint returns for it has gaps: no month is made up between the
    historical ones. *)
Lemma C1_gap_counterexample :
  let rows := [["month"; "category"; "amount"];
               ["1"; "food"; "10"]; ["3"; "food"; "12"]; ["5"; "food"; "11"]] in
  ∃ cats out,
    forecast Decimal.parse_int Decimal.parse_float rows (Qc_of_Z 100) 1
      = inr (cats, out) ∧
    month_values out = [Some (VInt 1); Some (VInt 3); Some (VInt 5); Some (VInt 6)] ∧
    ¬ consecutive_months out.
Proof.
  intros rows.
  set (answer := forecast Decimal.parse_int Decimal.parse_float rows (Qc_of_Z 100) 1).
  assert (month_values (timeline answer)
          = [Some (VInt 1); Some (VInt 3); Some (VInt 5); Some (VInt 6)]) as Hmonths
    by (vm_compute; reflexivity).
  clearbody answer. destruct answer as [e | [cats out]]; [discriminate Hmonths|].
  simpl in Hmonths. exists cats, out. split; [done|]. split; [done|].
  intros Hcons. destruct out as [|d [|d' rest]]; try discriminate Hmonths.
  injection Hmonths as Hfirst Hsecond _.
  destruct (Hcons 0%nat d d' eq_refl eq_refl) as (m & Hd & Hd').
  rewrite Hfirst in Hd. injection Hd as <-.
  rewrite Hsecond in Hd'. discriminate Hd'.
Qed.

(** A category named month: line 125 stores its amount under the key that
    carries the month number, and the summaries of months 1 and 4 come out
    with 5 as their month. *)
Lemma month_key_written_over :
  let rows := [["month"; "category"; "amount"];
               ["1"; "month"; "5"]; ["2"; "month"; "5"]; ["3"; "month"; "5"]] in
  let answer := forecast Decimal.parse_int Decimal.parse_float rows (Qc_of_Z 100) 1 in
  length (timeline answer) = 4%nat ∧
  fraction_at (timeline answer) 0 "month" = Some (inject_Z 5) ∧
  fraction_at (timeline answer) 3 "month" = Some (inject_Z 5).
Proof. vm_compute. by repeat split. Qed.

(** ** Historical months *)

Lemma omap_ext_elem {A B} (f g : A → option B) (l : list A) :
  (∀ x, x ∈ l → f x = g x) → omap f l = omap g l.
Proof.
  induction l as [|x l IH]; intros Hfg; csimpl; [done|].
  rewrite (Hfg x) by (by left). rewrite IH; [done|].
  intros y Hy. apply Hfg. by right.
Qed.

(** A category has an entry in a month exactly when an observation has this
    month and this category. *)
Lemma historical_entry_observed data m c :
  is_Some (historical_entry data m c) ↔
  ∃ o, o ∈ data ∧ month o = m ∧ category o = c.
Proof.
  unfold historical_entry.
  destruct (category_items data c m) as [|o items] eqn:Hitems.
  - split; [by intros [? ?]|]. intros (o & Ho & Hm & Hc).
    assert (o ∈ category_items data c m) as Hin.
    { apply list_elem_of_filter. by split. }
    rewrite Hitems in Hin. by apply elem_of_nil in Hin.
  - split; [intros _ | by eexists].
    assert (o ∈ category_items data c m) as Hin by (rewrite Hitems; by left).
    apply list_elem_of_filter in Hin as [[Hc Hm] Ho]. by exists o.
Qed.

(** Under a name that is neither of the two fixed keys, a historical summary
    holds the category's entry: the sum of the amounts observed for it in
    this month, or nothing. *)
Lemma historical_summary_category data cats salary m c :
  c ∈ cats → c ≠ "savings" → c ≠ "month" →
  historical_summary data cats salary m !! c = historical_entry data m c.
Proof.
  intros Hin Hs Hm. rewrite historical_summary_lookup.
  rewrite decide_False by done. rewrite decide_True by done.
  destruct (historical_entry data m c); [done|]. by rewrite decide_False.
Qed.

(** When no category is named savings or month, the savings of a historical
    month are the salary minus the category amounts of its summary. *)
Lemma historical_savings_balanced data cats salary m :
  "savings" ∉ cats → "month" ∉ cats →
  savings_balanced salary cats (historical_summary data cats salary m).
Proof.
  intros Hs Hm. unfold savings_balanced.
  rewrite historical_summary_lookup, decide_True by done.
  do 3 f_equal. unfold entries_total, category_total. f_equal.
  apply omap_ext_elem. intros c Hc.
  rewrite historical_summary_category; [done..| |]; by intros ->.
Qed.

(** For a listed category that is named neither savings nor month, a
    historical summary has the category's key exactly when the month has an
    observation of the category, and the key then holds the sum of the
    observed amounts. *)
Lemma historical_summary_observed data cats salary m c :
  c ∈ cats → c ≠ "savings" → c ≠ "month" →
  (is_Some (historical_summary data cats salary m !! c) ↔
     ∃ o, o ∈ data ∧ month o = m ∧ category o = c) ∧
  (∀ v, historical_summary data cats salary m !! c = Some v →
     v = VNum (Py.sum (amount <$> category_items data c m))).
Proof.
  intros Hc Hs Hm. rewrite historical_summary_category by done.
  split; [apply historical_entry_observed|].
  unfold historical_entry. intros v.
  destruct (category_items data c m); [discriminate | congruence].
Qed.

Lemma Qc_of_fraction (x : Qc) (z : Z) : this x = inject_Z z → x = Qc_of_Z z.
Proof. intros Hx. apply Qc_is_canon. by rewrite Hx. Qed.

Lemma fraction_at_lookup (out : list summary) (i : nat) (k : string) (d : summary) (z : Z) :
  out !! i = Some d → fraction_at out i k = Some (inject_Z z) →
  ∃ v, d !! k = Some v ∧ num_of v = Qc_of_Z z.
Proof.
  unfold fraction_at. intros -> Hk. simpl in Hk.
  destruct (d !! k) as [v|]; [|discriminate]. simpl in Hk. injection Hk as Hk.
  exists v. split; [done|]. by apply Qc_of_fraction.
Qed.

Lemma Qc_95_not_5 : Qc_of_Z 95 ≠ (Qc_of_Z 100 - Qc_of_Z 95)%Qc.
Proof. intros Heq. apply (f_equal this) in Heq. vm_compute in Heq. discriminate Heq. Qed.

(** C2 on a table whose category is named savings: the amount 5 of month 1
    is written under the key savings, the savings 100 - 5 are written over
    it, and the summary that comes out holds 95 both as its savings and as
    the only category value, so that income minus the category values is 5
    and not the savings. *)
Theorem C2_savings_key_written_over :
  let rows := [["month"; "category"; "amount"];
               ["1"; "savings"; "5"]; ["2"; "savings"; "5"]; ["3"; "savings"; "5"]] in
  ∃ out d,
    forecast Decimal.parse_int Decimal.parse_float rows (Qc_of_Z 100) 1
      = inr (["savings"], out) ∧
    out !! 0%nat = Some d ∧
    d !! "month" = Some (VInt 1) ∧
    num_of <$> d !! "savings" = Some (Qc_of_Z 95) ∧
    category_total ["savings"] d = Qc_of_Z 95 ∧
    ¬ savings_balanced (Qc_of_Z 100) ["savings"] d.
Proof.
  intros rows.
  set (answer := forecast Decimal.parse_int Decimal.parse_float rows (Qc_of_Z 100) 1).
  assert (answer_categories answer = Some ["savings"]) as Hcats
    by (vm_compute; reflexivity).
  assert (month_values (take 1 (timeline answer)) = [Some (VInt 1)]) as Hmonth
    by (vm_compute; reflexivity).
  assert (fraction_at (timeline answer) 0 "savings" = Some (inject_Z 95)) as Hsav
    by (vm_compute; reflexivity).
  clearbody answer. destruct answer as [e | [cats out]]; [discriminate Hcats|].
  simpl in Hcats, Hmonth, Hsav. injection Hcats as ->.
  destruct out as [|d rest]; [discriminate Hmonth|]. injection Hmonth as Hmonth.
  destruct (fraction_at_lookup (d :: rest) 0 "savings" d 95 eq_refl Hsav) as (v & Hv & Hnum).
  assert (category_total ["savings"] d = Qc_of_Z 95) as Htotal.
  { unfold category_total. csimpl. rewrite Hv. csimpl.
    rewrite sum_cons, sum_nil, Hnum. apply Qcplus_0_r. }
  exists (d :: rest), d. split; [done|]. split; [done|]. split; [done|].
  split; [by rewrite Hv; simpl; rewrite Hnum|]. split; [done|].
  unfold savings_balanced. rewrite Hv, Htotal. intros [= ->].
  simpl in Hnum. by apply Qc_95_not_5.
Qed.

(** C9 on a table where the category named savings is observed in month 1
    only: in month 1 the key savings holds the savings 95 and not the
    observed amount 5, and in month 2 the key savings is present although
    no observation of month 2 has this category. *)
Theorem C9_savings_key_not_the_category :
  let rows := [["month"; "category"; "amount"];
               ["1"; "savings"; "5"]; ["2"; "rent"; "7"]; ["3"; "rent"; "7"]] in
  ∃ data cats out d1 d2,
    validate Decimal.parse_int Decimal.parse_float rows = inr data ∧
    forecast Decimal.parse_int Decimal.parse_float rows (Qc_of_Z 100) 1
      = inr (cats, out) ∧
    "savings" ∈ cats ∧
    out !! 0%nat = Some d1 ∧ d1 !! "month" = Some (VInt 1) ∧
    out !! 1%nat = Some d2 ∧ d2 !! "month" = Some (VInt 2) ∧
    num_of <$> historical_entry data 1 "savings" = Some (Qc_of_Z 5) ∧
    num_of <$> d1 !! "savings" = Some (Qc_of_Z 95) ∧
    category_items data "savings" 2 = [] ∧
    is_Some (d2 !! "savings").
Proof.
  intros rows.
  set (checked := validate Decimal.parse_int Decimal.parse_float rows).
  set (answer := forecast Decimal.parse_int Decimal.parse_float rows (Qc_of_Z 100) 1).
  assert (match checked with
          | inr data =>
              Some (this ∘ num_of <$> historical_entry data 1 "savings",
                    length (category_items data "savings" 2))
          | inl _ => None
          end = Some (Some (inject_Z 5), 0%nat)) as Hdata
    by (vm_compute; reflexivity).
  assert (bool_decide ("savings" ∈ default [] (answer_categories answer)) = true)
    as Hcats by (vm_compute; reflexivity).
  assert (month_values (take 2 (timeline answer)) = [Some (VInt 1); Some (VInt 2)])
    as Hmonths by (vm_compute; reflexivity).
  assert (fraction_at (timeline answer) 0 "savings" = Some (inject_Z 95)) as Hfirst
    by (vm_compute; reflexivity).
  assert (fraction_at (timeline answer) 1 "savings" = Some (inject_Z 93)) as Hsecond
    by (vm_compute; reflexivity).
  clearbody checked answer.
  destruct checked as [e | data]; [discriminate Hdata|].
  destruct answer as [e | [cats out]]; [discriminate Hmonths|].
  simpl in Hcats, Hmonths, Hfirst, Hsecond. apply bool_decide_eq_true in Hcats.
  destruct out as [|d1 [|d2 rest]]; try discriminate Hmonths.
  injection Hmonths as Hm1 Hm2.
  destruct (fraction_at_lookup (d1 :: d2 :: rest) 0 "savings" d1 95 eq_refl Hfirst) as (v1 & Hv1 & Hn1).
  destruct (fraction_at_lookup (d1 :: d2 :: rest) 1 "savings" d2 93 eq_refl Hsecond) as (v2 & Hv2 & _).
  injection Hdata as Hentry Hitems.
  exists data, cats, (d1 :: d2 :: rest), d1, d2.
  split; [done|]. split; [done|]. split; [done|]. split; [done|]. split; [done|].
  split; [done|]. split; [done|]. split.
  { destruct (historical_entry data 1 "savings") as [v|]; [|discriminate Hentry].
    simpl in Hentry. injection Hentry as Hentry. simpl. f_equal.
    by apply Qc_of_fraction. }
  split; [by rewrite Hv1; simpl; rewrite Hn1|].
  split; [by apply nil_length_inv|]. by exists v2.
Qed.

(** ** Future months *)

Lemma num_of_clamp (p : Qc) :
  num_of (clamp p) = if decide (Q2Qc 0 < p)%Qc then p else Q2Qc 0.
Proof.
  unfold clamp. destruct (decide (Q2Qc 0 < p)%Qc); [done|].
  by apply Qc_is_canon.
Qed.

Lemma clamp_nonneg (p : Qc) : (Q2Qc 0 ≤ num_of (clamp p))%Qc.
Proof.
  rewrite num_of_clamp. destruct (decide (Q2Qc 0 < p)%Qc) as [Hp|_].
  - by apply Qclt_le_weak.
  - apply Qcle_refl.
Qed.


Lemma category_data_nonempty (data : list obs) (c : string) :
  category_data data c ≠ [] ↔ ∃ o, o ∈ data ∧ category o = c.
Proof.
  unfold category_data. split.
  - destruct (filter _ data) as [|o items] eqn:Hitems; [done|]. intros _.
    assert (o ∈ filter (λ item : obs, category item = c) data) as Hin
      by (rewrite Hitems; by left).
    apply list_elem_of_filter in Hin as [Hc Ho]. by exists o.
  - intros (o & Ho & Hc) Hnil.
    assert (o ∈ filter (λ item : obs, category item = c) data) as Hin
      by (by apply list_elem_of_filter).
    rewrite Hnil in Hin. by apply elem_of_nil in Hin.
Qed.

Lemma future_entry_Some data m c :
  category_data data c ≠ [] → future_entry data m c = Some (predicted_amount data c m).
Proof. unfold future_entry. by destruct (category_data data c). Qed.

Lemma future_entry_inv data m c v :
  future_entry data m c = Some v → v = predicted_amount data c m.
Proof. unfold future_entry. destruct (category_data data c); congruence. Qed.






(** What the future pass returns: one summary per month after the last. *)
Lemma future_pass_Some data cats salary h :
  data ≠ [] →
  ∃ last, Py.max (historical_months data) = Some last ∧
    future_pass data cats salary h =
    Some (future_summary data cats salary <$> seqZ (last + 1) h).
Proof.
  intros Hdata.
  destruct (max_is_Some (historical_months data)) as [last Hlast].
  { by apply historical_months_nonempty. }
  exists last. split; [done|]. unfold future_pass. by rewrite Hlast.
Qed.

Lemma future_pass_elem data cats salary h fut d :
  future_pass data cats salary h = Some fut → d ∈ fut →
  ∃ last m, Py.max (historical_months data) = Some last ∧
    last + 1 ≤ m < last + 1 + h ∧ d = future_summary data cats salary m.
Proof.
  unfold future_pass. destruct (Py.max (historical_months data)) as [last|];
    [|discriminate].
  intros [= <-] (m & -> & Hm%elem_of_seqZ)%list_elem_of_fmap.
  by exists last, m.
Qed.


(** *** The series of a category *)

Lemma sums_get_add_eq key a sums :
  sums_get key (sums_add key a sums)
  = Some (default (Q2Qc 0) (sums_get key sums) + a)%Qc.
Proof.
  induction sums as [|[k v] rest IH]; simpl.
  - by rewrite decide_True.
  - destruct (decide (k = key)) as [->|Hne]; simpl.
    + by rewrite decide_True.
    + by rewrite decide_False.
Qed.

Lemma sums_get_add_ne key key' a sums :
  key' ≠ key → sums_get key' (sums_add key a sums) = sums_get key' sums.
Proof.
  intros Hne. induction sums as [|[k v] rest IH]; simpl.
  - by rewrite decide_False.
  - destruct (decide (k = key)) as [->|Hk]; simpl.
    + by rewrite !decide_False.
    + by rewrite IH.
Qed.

Lemma sums_get_elem key v sums : sums_get key sums = Some v → (key, v) ∈ sums.
Proof.
  induction sums as [|[k w] rest IH]; simpl; [discriminate|].
  destruct (decide (k = key)) as [->|Hne].
  - intros [= ->]. by left.
  - intros Hget. right. by apply IH.
Qed.

Lemma sums_get_None key sums : sums_get key sums = None → key ∉ sums.*1.
Proof.
  induction sums as [|[k w] rest IH]; simpl; [intros _; apply not_elem_of_nil|].
  destruct (decide (k = key)) as [->|Hne]; [discriminate|].
  intros Hget [?|?]%elem_of_cons; [done|]. by apply IH.
Qed.

Lemma sums_elem_get key v sums :
  NoDup sums.*1 → (key, v) ∈ sums → sums_get key sums = Some v.
Proof.
  induction sums as [|[k w] rest IH]; simpl; intros Hnd Hin.
  - by apply elem_of_nil in Hin.
  - apply list.NoDup_cons in Hnd as [Hk Hnd].
    apply elem_of_cons in Hin as [[= <- <-] | Hin].
    + by rewrite decide_True.
    + rewrite decide_False; [by apply IH|].
      intros ->. apply Hk. apply list_elem_of_fmap. by exists (key, v).
Qed.

Lemma sums_add_NoDup key a sums : NoDup sums.*1 → NoDup (sums_add key a sums).*1.
Proof.
  induction sums as [|[k v] rest IH]; simpl; intros Hnd.
  - apply NoDup_singleton.
  - apply list.NoDup_cons in Hnd as [Hk Hnd].
    destruct (decide (k = key)) as [->|Hne]; simpl.
    + by apply list.NoDup_cons.
    + apply list.NoDup_cons. split; [|by apply IH].
      intros (kv & Heq & Hin)%list_elem_of_fmap. destruct kv as [k' v'].
      simpl in Heq. subst k'.
      assert (sums_get k (sums_add key a rest) = Some v') as Hget.
      { apply sums_elem_get; [by apply IH | done]. }
      rewrite sums_get_add_ne in Hget by done.
      apply sums_get_elem in Hget. apply Hk.
      apply list_elem_of_fmap. by exists (k, v').
Qed.

Lemma sum_snoc (xs : list Qc) (a : Qc) : Py.sum (xs ++ [a]) = (Py.sum xs + a)%Qc.
Proof. unfold Py.sum. by rewrite foldl_snoc. Qed.

(** The dictionary of sums after the loop of lines 147-151: its keys are
    distinct, and under a key it holds the sum of the amounts of the items
    with this month and category, in the order of the data. *)
Lemma monthly_category_sums_get (items : list obs) (key : Z * string) :
  NoDup (monthly_category_sums items).*1 ∧
  sums_get key (monthly_category_sums items)
  = match keyed_items key items with
    | [] => None
    | _ :: _ => Some (Py.sum (amount <$> keyed_items key items))
    end.
Proof.
  unfold monthly_category_sums, keyed_items.
  induction items as [|x items [IHnd IH]] using rev_ind; [split; [constructor | done]|].
  rewrite foldl_snoc. split; [by apply sums_add_NoDup|].
  rewrite list.filter_app.
  destruct (decide ((month x, category x) = key)) as [Hkey|Hkey].
  - rewrite Hkey, sums_get_add_eq, IH.
    rewrite (filter_cons_True _ x []) by done. rewrite filter_nil.
    destruct (filter _ items) as [|y l]; simpl.
    + done.
    + rewrite fmap_app. simpl.
      change (amount y :: (amount <$> l) ++ [amount x])
        with ((amount y :: (amount <$> l)) ++ [amount x]).
      by rewrite sum_snoc.
  - rewrite sums_get_add_ne by done. rewrite IH.
    rewrite (filter_cons_False _ x []) by done. rewrite filter_nil.
    by rewrite app_nil_r.
Qed.

Lemma keyed_items_category_data (data : list obs) (c : string) (m : Z) :
  keyed_items (m, c) (category_data data c) = category_items data c m.
Proof.
  unfold keyed_items, category_data, category_items.
  rewrite list_filter_filter. apply list_filter_iff.
  intros o. split.
  - by intros [[= -> _] ->].
  - by intros [-> ->].
Qed.

(** The series of a category, as the specification describes it: a point
    for each month in which the category has observations, carrying the
    sum of their amounts. *)
Lemma category_series_elem (data : list obs) (c : string) (m : Z) (a : Qc) :
  (m, a) ∈ category_series data c ↔
  category_items data c m ≠ [] ∧ a = Py.sum (amount <$> category_items data c m).
Proof.
  unfold category_series. rewrite list_elem_of_omap.
  destruct (monthly_category_sums_get (category_data data c) (m, c)) as [Hnd Hget].
  rewrite keyed_items_category_data in Hget.
  split.
  - intros ([[m' c'] a'] & Hin & Hkeep).
    destruct (decide (c' = c)) as [->|]; [|discriminate].
    injection Hkeep as -> ->.
    apply (sums_elem_get _ _ _ Hnd) in Hin. rewrite Hget in Hin.
    destruct (category_items data c m); [discriminate|].
    injection Hin as <-. by split.
  - intros [Hne ->]. exists ((m, c), Py.sum (amount <$> category_items data c m)).
    split; [|by rewrite decide_True].
    apply sums_get_elem. rewrite Hget. by destruct (category_items data c m).
Qed.

(** No month occurs twice in a series. *)
Lemma category_series_months (data : list obs) (c : string) :
  NoDup (category_series data c).*1.
Proof.
  unfold category_series.
  destruct (monthly_category_sums_get (category_data data c) (0, c)) as [Hnd _].
  induction (monthly_category_sums (category_data data c)) as [|[[m c'] a] rest IH];
    csimpl; [constructor|].
  apply list.NoDup_cons in Hnd as [Hk Hnd].
  destruct (decide (c' = c)) as [->|]; [|by apply IH].
  csimpl. apply list.NoDup_cons. split; [|by apply IH].
  intros ([m' a'] & Heq & Hin)%list_elem_of_fmap. simpl in Heq. subst m'.
  apply list_elem_of_omap in Hin as ([[m'' c''] a''] & Hin & Hkeep).
  destruct (decide (c'' = c)) as [->|]; [|discriminate].
  injection Hkeep as -> ->.
  apply Hk. apply list_elem_of_fmap. by exists ((m, c), a').
Qed.






(** ** The regression on one and on two points *)














(** * Further properties of the endpoint *)

(** ** What a successful validation returns *)

Section ValidatorResults.

Context {num : Type}.
Variable parse_int : string → option Z.
Variable parse_float : string → option num.

Local Abbreviation run := (parse_rows parse_int parse_float).
Local Abbreviation checked := (validate parse_int parse_float).
Local Abbreviation offending := (offending_row parse_int parse_float).
Local Abbreviation kept := (kept_rows parse_int parse_float).

(** Without an offending row the loop goes through, and it has appended
    the observations of the rows, in their order. *)
Lemma parse_rows_kept rows st :
  (∀ row, row ∈ rows → ¬ offending row) →
  ∃ months_found, run rows st = inr (st.1 ++ kept rows, months_found).
Proof.
  revert st. induction rows as [|row rows IH]; intros st Hok.
  - exists st.2. simpl. rewrite app_nil_r. by destruct st.
  - assert (∀ r, r ∈ rows → ¬ offending r) as Hrest
      by (intros r Hr; apply Hok; by right).
    unfold kept_rows. cbn [parse_rows]. csimpl. unfold row_observation at 1.
    destruct (parse_row parse_int parse_float row) as [|e|o] eqn:Hrow.
    + apply (IH st Hrest).
    + apply parse_row_aborted in Hrow as [Hbad _].
      destruct (Hok row); [by left | done].
    + destruct (IH (st.1 ++ [o], {[month o]} ∪ st.2) Hrest) as [mf Hrun].
      exists mf. rewrite Hrun. simpl. by rewrite <-app_assoc.
Qed.

(** X1. The validation succeeds exactly when the header is the expected
    one, no row is offending, and the observations of the rows are not
    empty and span at least three distinct months; what it returns is then
    the list of these observations, in the order of the rows. *)
Theorem validate_returns_kept_rows (headers : list string)
    (rows : list (list string)) (data : list (observation num)) :
  validate parse_int parse_float (headers :: rows) = inr data ↔
  header_ok headers = true ∧
  (∀ row, row ∈ rows → ¬ offending_row parse_int parse_float row) ∧
  data = kept_rows parse_int parse_float rows ∧ data ≠ [] ∧
  (3 ≤ size (distinct_months data))%nat.
Proof.
  split.
  - intros Hv. destruct (header_ok headers) eqn:Hh.
    2:{ unfold validate in Hv. by rewrite Hh in Hv. }
    rewrite validate_unfold in Hv by done.
    destruct (run rows ([], ∅)) as [e | [all_data mf]] eqn:Hrun; [discriminate|].
    assert (∀ row, row ∈ rows → ¬ offending row) as Hok.
    { intros row Hin Hbad.
      apply list_elem_of_split in Hin as (pre & post & ->).
      rewrite parse_rows_app in Hrun.
      destruct (run pre ([], ∅)) as [e | st]; [discriminate|].
      simpl in Hrun. by rewrite parse_row_offending in Hrun. }
    destruct (parse_rows_kept rows ([], ∅) Hok) as [mf' Hkept].
    rewrite Hrun in Hkept. injection Hkept as -> _.
    repeat case_decide; try discriminate. injection Hv as <-.
    split; [done|]. split; [done|]. split; [done|]. split; [done|]. lia.
  - intros (Hh & Hok & -> & Hne & Hmonths).
    rewrite validate_unfold by done.
    destruct (parse_rows_kept rows ([], ∅) Hok) as [mf ->]. simpl.
    rewrite decide_False by done. rewrite decide_False by lia. done.
Qed.

(** X2. Each observation of a successful validation comes from a row of
    three fields: its month is the integer read from the trimmed month
    field, its amount the number read from the trimmed amount field, and
    its category the trimmed category field, which is not empty. *)
Theorem validated_observation_origin (headers : list string)
    (rows : list (list string)) (data : list (observation num))
    (o : observation num) :
  validate parse_int parse_float (headers :: rows) = inr data → o ∈ data →
  ∃ m c a, [m; c; a] ∈ rows ∧
    parse_int (Py.strip m) = Some (month o) ∧
    parse_float (Py.strip a) = Some (amount o) ∧
    category o = Py.strip c ∧ category o ≠ EmptyString ∧
    Py.strip m ≠ EmptyString.
Proof.
  intros (_ & _ & -> & _)%validate_returns_kept_rows Ho.
  unfold kept_rows in Ho.
  apply list_elem_of_omap in Ho as (row & Hrow & Hobs).
  unfold row_observation in Hobs.
  destruct row as [|m [|c [|a [|? ?]]]]; simpl in Hobs; try discriminate.
  destruct (bool_decide (Py.strip c = EmptyString)) eqn:Hc; [discriminate|].
  destruct (bool_decide (Py.strip m = EmptyString)) eqn:Hm; [discriminate|].
  simpl in Hobs. apply bool_decide_eq_false in Hc, Hm.
  destruct (parse_int (Py.strip m)) as [mo|] eqn:Hi; [|discriminate].
  destruct (parse_float (Py.strip a)) as [am|] eqn:Hf; [|discriminate].
  injection Hobs as <-. by exists m, c, a.
Qed.

End ValidatorResults.

Lemma validated_observation_origin_witness :
  let rows := [["1"; " rent "; "5"]; []; ["2"; "rent"; "6"]; ["3"; "food"; "7"]] in
  ∃ m c a, [m; c; a] ∈ rows ∧
    Decimal.parse_int (Py.strip m) = Some 1 ∧
    Decimal.parse_float (Py.strip a) = Some (Qc_of_Z 5) ∧
    "rent" = Py.strip c ∧ "rent" ≠ EmptyString ∧ Py.strip m ≠ EmptyString.
Proof.
  intros rows.
  apply (validated_observation_origin Decimal.parse_int Decimal.parse_float
           ["month"; "category"; "amount"] rows
           [Obs 1 "rent" (Qc_of_Z 5); Obs 2 "rent" (Qc_of_Z 6);
            Obs 3 "food" (Qc_of_Z 7)]
           (Obs 1 "rent" (Qc_of_Z 5))).
  - apply validate_returns_kept_rows. split; [done|]. split.
    + intros row Hrow Hbad%parse_row_offending.
      repeat (apply elem_of_cons in Hrow as [-> | Hrow]; [discriminate Hbad|]).
      by apply elem_of_nil in Hrow.
    + split; [|split; [discriminate | vm_compute; lia]].
      unfold kept_rows, row_observation, parse_row. simpl.
      repeat f_equal; by apply Qc_is_canon.
  - by left.
Defined.

(** ** The rejections, one by one *)


Section Rejections.

Variable parse_int : string → option Z.
Variable parse_float : string → option Qc.

Local Abbreviation checked := (validate parse_int parse_float).
Local Abbreviation offending := (offending_row parse_int parse_float).
Local Abbreviation answer := (forecast parse_int parse_float).




End Rejections.



(** X6. The header check looks at the lowercase forms only: two headers
    with the same lowercase forms are treated alike by the validation, and a
    header is treated like its own lowercase form. *)
Theorem header_case_insensitive {num} (parse_int : string → option Z)
    (parse_float : string → option num) (headers headers' : list string)
    (rows : list (list string)) :
  (Py.lower <$> headers = Py.lower <$> headers' →
   validate parse_int parse_float (headers :: rows)
   = validate parse_int parse_float (headers' :: rows)) ∧
  validate parse_int parse_float ((Py.lower <$> headers) :: rows)
  = validate parse_int parse_float (headers :: rows).
Proof.
  assert (∀ h h' : list string, Py.lower <$> h = Py.lower <$> h' →
            header_ok h = header_ok h') as Hsame.
  { intros h h' Heq.
    destruct h as [|a0 [|a1 [|a2 [|a3 h]]]];
      destruct h' as [|b0 [|b1 [|b2 [|b3 h']]]]; try discriminate Heq; try done.
    injection Heq as E0 E1 E2. simpl. by rewrite E0, E1, E2. }
  assert (∀ c, Py.lower_char (Py.lower_char c) = Py.lower_char c) as Hchar.
  { by intros [[] [] [] [] [] [] [] []]. }
  assert (∀ s, Py.lower (Py.lower s) = Py.lower s) as Hidem.
  { induction s as [|c s IH]; simpl; [done|]. by rewrite Hchar, IH. }
  split.
  - intros Heq. unfold validate. by rewrite (Hsame _ _ Heq).
  - unfold validate. rewrite (Hsame (Py.lower <$> headers) headers); [done|].
    rewrite <-list_fmap_compose. apply list_fmap_ext. intros _ s _. apply Hidem.
Qed.

Lemma header_case_insensitive_witness :
  let rows := [["1"; "rent"; "5"]; ["2"; "rent"; "5"]] in
  validate Decimal.parse_int Decimal.parse_float
    (["MONTH"; "Category"; "amounT"] :: rows)
  = validate Decimal.parse_int Decimal.parse_float
      (["month"; "category"; "amount"] :: rows).
Proof.
  intros rows.
  by apply (header_case_insensitive Decimal.parse_int Decimal.parse_float).
Defined.


(** ** Sums *)


Lemma sum_app (xs ys : list Qc) : Py.sum (xs ++ ys) = (Py.sum xs + Py.sum ys)%Qc.
Proof.
  induction xs as [|x xs IH]; simpl.
  - rewrite sum_nil. ring.
  - rewrite !sum_cons, IH. ring.
Qed.

Lemma sum_nonneg (xs : list Qc) :
  Forall (λ x, Q2Qc 0 ≤ x)%Qc xs → (Q2Qc 0 ≤ Py.sum xs)%Qc.
Proof.
  induction 1 as [|x xs Hx _ IH]; [rewrite sum_nil; apply Qcle_refl|].
  rewrite sum_cons. replace (Q2Qc 0) with (Q2Qc 0 + Q2Qc 0)%Qc by ring.
  by apply Qcplus_le_compat.
Qed.


Section SumsOver.

Context {A : Type}.
Implicit Types (f g : A → Qc) (l : list A).





End SumsOver.

(** ** The savings of a month *)








Lemma future_entries_nonneg data m cats :
  (Q2Qc 0 ≤ entries_total (future_entry data m) cats)%Qc.
Proof.
  unfold entries_total. apply sum_nonneg. apply list.Forall_forall.
  intros x (c & Hc & Hx)%list_elem_of_omap.
  destruct (future_entry data m c) as [v|] eqn:Hentry; [|discriminate].
  injection Hx as <-. apply future_entry_inv in Hentry as ->. apply clamp_nonneg.
Qed.

(** X8. The savings of a future summary are the salary minus the predicted
    amounts of the listed categories that have data, so they never exceed
    the salary; and when no category is named savings or month, they are the
    salary minus the category values the summary holds. *)
Theorem future_savings (data : list obs) (cats : list string) (salary : Qc)
    (h : Z) (fut : list summary) (d : summary) :
  future_pass data cats salary h = Some fut → d ∈ fut →
  ∃ m s, d = future_summary data cats salary m ∧
    d !! "savings" = Some (VNum s) ∧
    s = (salary - entries_total (future_entry data m) cats)%Qc ∧
    (s ≤ salary)%Qc ∧
    ("savings" ∉ cats → "month" ∉ cats → savings_balanced salary cats d).
Proof.
  intros Hfut Hd.
  apply (future_pass_elem _ _ _ _ _ _ Hfut) in Hd as (last & m & _ & _ & ->).
  exists m, (salary - entries_total (future_entry data m) cats)%Qc.
  split; [done|]. split; [by rewrite future_summary_lookup, decide_True|].
  split; [done|]. split.
  - pose proof (future_entries_nonneg data m cats) as Hpos.
    apply (Qcplus_le_compat salary salary) in Hpos; [|apply Qcle_refl].
    apply (Qcplus_le_compat _ _ (- entries_total (future_entry data m) cats)
             (- entries_total (future_entry data m) cats)) in Hpos;
      [|apply Qcle_refl].
    replace (salary + Q2Qc 0 + - entries_total (future_entry data m) cats)%Qc
      with (salary - entries_total (future_entry data m) cats)%Qc in Hpos by ring.
    replace (salary + entries_total (future_entry data m) cats
             + - entries_total (future_entry data m) cats)%Qc
      with salary in Hpos by ring.
    done.
  - intros Hs Hm. unfold savings_balanced.
    rewrite future_summary_lookup, decide_True by done.
    do 3 f_equal. unfold entries_total, category_total. f_equal.
    apply omap_ext_elem. intros c Hc. rewrite future_summary_lookup.
    rewrite decide_False by (by intros ->). rewrite decide_True by done.
    destruct (future_entry data m c); [done|].
    rewrite decide_False; [done | by intros ->].
Qed.

Lemma future_savings_witness :
  let data := [Obs 1 "rent" (Qc_of_Z 10); Obs 2 "rent" (Qc_of_Z 20);
               Obs 3 "food" (Qc_of_Z 3)] in
  ∃ fut d s, future_pass data ["rent"; "food"] (Qc_of_Z 100) 2 = Some fut ∧
    fut !! 0%nat = Some d ∧ d !! "savings" = Some (VNum s) ∧
    (s ≤ Qc_of_Z 100)%Qc.
Proof.
  intros data.
  destruct (future_pass_Some data ["rent"; "food"] (Qc_of_Z 100) 2)
    as (last & Hlast & Hfut); [done|].
  vm_compute in Hlast. injection Hlast as <-.
  rewrite seqZ_cons in Hfut by lia. csimpl in Hfut.
  destruct (future_savings data ["rent"; "food"] (Qc_of_Z 100) 2 _
              (future_summary data ["rent"; "food"] (Qc_of_Z 100) 4) Hfut)
    as (m & s & _ & Hs & _ & Hle & _); [by left|].
  eexists _, _, s. split; [exact Hfut|]. split; [done|]. by split.
Defined.

(** ** The keys of a summary *)

(** X9. A summary is sparse. A historical summary has a key exactly for
    the savings, the month, and each listed category observed in its month;
    a future summary has a key exactly for the savings, the month, and each
    listed category observed at all. Hence all the future summaries of a
    forecast have the same keys. *)
Theorem summary_keys (data : list obs) (cats : list string) (salary : Qc)
    (m : Z) (k : string) :
  (is_Some (historical_summary data cats salary m !! k) ↔
     k = "savings" ∨ k = "month" ∨
     (k ∈ cats ∧ ∃ o, o ∈ data ∧ month o = m ∧ category o = k)) ∧
  (is_Some (future_summary data cats salary m !! k) ↔
     k = "savings" ∨ k = "month" ∨ (k ∈ cats ∧ ∃ o, o ∈ data ∧ category o = k)) ∧
  (∀ m', dom (future_summary data cats salary m)
         = dom (future_summary data cats salary m')).
Proof.
  assert (∀ m0, is_Some (future_summary data cats salary m0 !! k) ↔
     k = "savings" ∨ k = "month" ∨ (k ∈ cats ∧ ∃ o, o ∈ data ∧ category o = k))
    as Hfuture.
  { intros m0. rewrite future_summary_lookup.
    destruct (decide (k = "savings")) as [->|Hs]; [split; [by left | by eexists]|].
    destruct (decide (k ∈ cats)) as [Hin|Hin].
    - destruct (future_entry data m0 k) as [v|] eqn:Hentry.
      + split; [|by eexists]. intros _. right. right. split; [done|].
        apply category_data_nonempty. intros Hnil.
        unfold future_entry in Hentry. by rewrite Hnil in Hentry.
      + destruct (decide (k = "month")) as [->|Hm];
          [split; [by right; left | by eexists]|].
        split; [by intros [? ?]|]. intros [?|[?|[_ Hobs]]]; [done..|].
        apply category_data_nonempty in Hobs.
        by rewrite future_entry_Some in Hentry.
    - destruct (decide (k = "month")) as [->|Hm];
        [split; [by right; left | by eexists]|].
      split; [by intros [? ?]|]. by intros [?|[?|[? _]]]. }
  split; [|split; [apply Hfuture|]].
  - rewrite historical_summary_lookup.
    destruct (decide (k = "savings")) as [->|Hs]; [split; [by left | by eexists]|].
    destruct (decide (k ∈ cats)) as [Hin|Hin].
    + destruct (historical_entry data m k) as [v|] eqn:Hentry.
      * split; [|by eexists]. intros _. right. right. split; [done|].
        apply historical_entry_observed. by rewrite Hentry.
      * destruct (decide (k = "month")) as [->|Hm];
          [split; [by right; left | by eexists]|].
        split; [by intros [? ?]|]. intros [?|[?|[_ Hobs]]]; [done..|].
        apply historical_entry_observed in Hobs. rewrite Hentry in Hobs.
        by destruct Hobs.
    + destruct (decide (k = "month")) as [->|Hm];
        [split; [by right; left | by eexists]|].
      split; [by intros [? ?]|]. by intros [?|[?|[? _]]].
  - intros m'. apply set_eq. intros k'. rewrite !elem_of_dom.
    clear Hfuture.
    assert (∀ m0, is_Some (future_summary data cats salary m0 !! k') ↔
              is_Some (future_summary data cats salary m !! k')) as Hsame.
    { intros m0. rewrite !future_summary_lookup. unfold future_entry.
      destruct (category_data data k'); repeat case_decide;
        split; intros [v Hv]; first [by eexists | discriminate Hv]. }
    by rewrite (Hsame m').
Qed.

(** ** The order of the categories and of the rows *)





(** ** The fit, read over the points *)






Section RowOrder.

Variables data data' : list obs.
Hypothesis Hperm : data ≡ₚ data'.








End RowOrder.



(** ** The horizon *)

(** X12. A longer horizon extends the forecast of a shorter one: the
    historical part and the months already forecast stay as they are, and
    the additional months follow. *)
Theorem forecast_horizon_extends (data : list obs) (cats : list string)
    (salary : Qc) (h k : Z) :
  data ≠ [] → 0 ≤ h → 0 ≤ k →
  ∃ out more,
    generate_forecast data cats salary h = Some out ∧
    generate_forecast data cats salary (h + k) = Some (out ++ more) ∧
    length more = Z.to_nat k ∧
    take (length (historical_months data)) out = historical_pass data cats salary.
Proof.
  intros Hdata Hh Hk.
  destruct (generate_forecast_Some data cats salary h Hdata) as (last & Hlast & Hout).
  destruct (generate_forecast_Some data cats salary (h + k) Hdata)
    as (last' & Hlast' & Hout').
  rewrite Hlast in Hlast'. injection Hlast' as <-.
  eexists _, (future_summary data cats salary <$> seqZ (last + 1 + h) k).
  split; [exact Hout|]. split; [|split].
  - rewrite Hout', seqZ_app, fmap_app by done. by rewrite app_assoc.
  - by rewrite length_fmap, length_seqZ.
  - rewrite take_app_length'; [done|].
    unfold historical_pass. by rewrite length_fmap.
Qed.

Lemma forecast_horizon_extends_witness :
  let data := [Obs 1 "rent" (Qc_of_Z 10); Obs 2 "food" (Qc_of_Z 20);
               Obs 3 "rent" (Qc_of_Z 3)] in
  ∃ out more,
    generate_forecast data ["rent"; "food"] (Qc_of_Z 100) 1 = Some out ∧
    generate_forecast data ["rent"; "food"] (Qc_of_Z 100) (1 + 2)
      = Some (out ++ more) ∧
    length more = 2%nat.
Proof.
  intros data.
  destruct (forecast_horizon_extends data ["rent"; "food"] (Qc_of_Z 100) 1 2)
    as (out & more & Hout & Hmore & Hlen & _); [done | lia | lia |].
  by exists out, more.
Defined.

(** ** The fit is a least-squares fit *)




Section Fit.

Variable pts : list (Z * Qc).









End Fit.

(** ** Series that lie on a line *)

Section Collinear.

Variable pts : list (Z * Qc).
Variables a b : Qc.
Hypothesis Hne : pts ≠ [].
Hypothesis Hline : ∀ p, p ∈ pts → p.2 = (a * Qc_of_Z p.1 + b)%Qc.




End Collinear.



(** ** The series, the empty input, the category values *)

(** X15. The series of a category is the one the specification describes:
    it has a point at month [m] exactly when the category is observed in
    [m], the point carries the sum of the amounts observed for the category
    in [m], and no month has two points. *)
Theorem category_series_spec (data : list obs) (c : string) :
  NoDup (category_series data c).*1 ∧
  (∀ m a, (m, a) ∈ category_series data c ↔
     (∃ o, o ∈ data ∧ month o = m ∧ category o = c) ∧
     a = spent (category_items data c m)).
Proof.
  split; [apply category_series_months|].
  intros m a. rewrite category_series_elem. unfold spent.
  assert (category_items data c m ≠ [] ↔
          ∃ o, o ∈ data ∧ month o = m ∧ category o = c) as Hobs.
  { rewrite <-historical_entry_observed. unfold historical_entry.
    destruct (category_items data c m) as [|o items].
    - split; [done | by intros [? ?]].
    - split; [by eexists | done]. }
  by rewrite Hobs.
Qed.

Lemma category_series_spec_witness :
  let data := [Obs 1 "food" (Qc_of_Z 10); Obs 2 "food" (Qc_of_Z 14);
               Obs 2 "food" (Qc_of_Z 6); Obs 2 "rent" (Qc_of_Z 70)] in
  (2, spent (category_items data "food" 2)) ∈ category_series data "food".
Proof.
  intros data. apply (category_series_spec data "food"). split; [|done].
  exists (Obs 2 "food" (Qc_of_Z 14)). split; [|done]. right. by left.
Defined.

(** X16. The engine fails exactly on no observation at all (the maximum of
    no month); and with a horizon that is not positive it returns the
    historical part alone. *)
Theorem generate_forecast_edges (data : list obs) (cats : list string)
    (salary : Qc) (h : Z) :
  (generate_forecast data cats salary h = None ↔ data = []) ∧
  (data ≠ [] → h ≤ 0 →
   generate_forecast data cats salary h = Some (historical_pass data cats salary)).
Proof.
  split.
  - split.
    + intros Hnone. destruct (decide (data = [])) as [|Hne]; [done|].
      destruct (generate_forecast_Some data cats salary h Hne) as (last & _ & Hout).
      by rewrite Hout in Hnone.
    + by intros ->.
  - intros Hne Hh.
    destruct (generate_forecast_Some data cats salary h Hne) as (last & _ & ->).
    rewrite seqZ_nil by done. by rewrite app_nil_r.
Qed.

Lemma generate_forecast_edges_witness :
  let data := [Obs 1 "food" (Qc_of_Z 10); Obs 2 "food" (Qc_of_Z 14)] in
  generate_forecast [] ["food"] (Qc_of_Z 100) 3 = None ∧
  generate_forecast data ["food"] (Qc_of_Z 100) 0
  = Some (historical_pass data ["food"] (Qc_of_Z 100)).
Proof.
  intros data. split.
  - by apply (generate_forecast_edges [] ["food"] (Qc_of_Z 100) 3).
  - by apply (generate_forecast_edges data ["food"] (Qc_of_Z 100) 0).
Defined.

(** X17. Under the name of a listed category that is named neither savings
    nor month, a historical summary holds the sum of the amounts observed
    for the category in the month, and it has no such key when the month has
    no observation of the category: several observations are added up, and
    an absent category is left out rather than set to 0. *)
Theorem historical_category_values (data : list obs) (cats : list string)
    (salary : Qc) (m : Z) (c : string) :
  c ∈ cats → c ≠ "savings" → c ≠ "month" →
  ((∃ o, o ∈ data ∧ month o = m ∧ category o = c) →
   historical_summary data cats salary m !! c
   = Some (VNum (spent (category_items data c m)))) ∧
  ((¬ ∃ o, o ∈ data ∧ month o = m ∧ category o = c) →
   historical_summary data cats salary m !! c = None).
Proof.
  intros Hc Hs Hm.
  destruct (historical_summary_observed data cats salary m c Hc Hs Hm)
    as [Hkey Hvalue].
  destruct (historical_summary data cats salary m !! c) as [v|] eqn:Hv.
  - split; [intros _; by rewrite (Hvalue v eq_refl)|].
    intros Hno. destruct Hno. apply Hkey. by eexists.
  - split; [|done]. intros Hobs. apply Hkey in Hobs. by destruct Hobs.
Qed.

Lemma historical_category_values_witness :
  let data := [Obs 1 "food" (Qc_of_Z 10); Obs 2 "food" (Qc_of_Z 14);
               Obs 2 "food" (Qc_of_Z 6); Obs 2 "rent" (Qc_of_Z 70)] in
  historical_summary data ["food"; "rent"] (Qc_of_Z 100) 2 !! "food"
  = Some (VNum (spent (category_items data "food" 2))) ∧
  historical_summary data ["food"; "rent"] (Qc_of_Z 100) 1 !! "rent" = None.
Proof.
  intros data. split.
  - apply (historical_category_values data ["food"; "rent"] (Qc_of_Z 100) 2 "food");
      [by left|discriminate|discriminate|].
    exists (Obs 2 "food" (Qc_of_Z 14)). split; [|done]. right. by left.
  - apply (historical_category_values data ["food"; "rent"] (Qc_of_Z 100) 1 "rent");
      [right; by left|discriminate|discriminate|].
    intros (o & Ho & Hm & Hc).
    repeat (apply elem_of_cons in Ho as [-> | Ho]; [discriminate|]).
    by apply elem_of_nil in Ho.
Defined.

(** X18. When no listed category is named savings or month, the savings of
    every summary of the historical pass are the salary minus the category
    values the summary holds. *)
Theorem historical_savings_balance (data : list obs) (cats : list string)
    (salary : Qc) (d : summary) :
  "savings" ∉ cats → "month" ∉ cats →
  d ∈ historical_pass data cats salary →
  savings_balanced salary cats d.
Proof.
  intros Hs Hm (m & -> & _)%list_elem_of_fmap.
  by apply historical_savings_balanced.
Qed.

Lemma historical_savings_balance_witness :
  let data := [Obs 1 "food" (Qc_of_Z 10); Obs 1 "rent" (Qc_of_Z 70)] in
  savings_balanced (Qc_of_Z 100) ["food"; "rent"]
    (historical_summary data ["food"; "rent"] (Qc_of_Z 100) 1).
Proof.
  intros data.
  apply (historical_savings_balance data ["food"; "rent"] (Qc_of_Z 100)).
  - by apply (bool_decide_unpack _).
  - by apply (bool_decide_unpack _).
  - apply list_elem_of_fmap. exists 1. split; [done|].
    apply elem_of_historical_months. exists (Obs 1 "food" (Qc_of_Z 10)).
    split; [by left | done].
Defined.

(** ** Instances *)

Lemma validate_returns_kept_rows_witness :
  let rows := [["1"; "rent"; "5"]; ["x"]; ["2"; "rent"; "6"]; ["3"; "food"; "7"]] in
  validate Decimal.parse_int Decimal.parse_float
    (["month"; "category"; "amount"] :: rows)
  = inr (kept_rows Decimal.parse_int Decimal.parse_float rows).
Proof.
  intros rows. apply validate_returns_kept_rows. split; [done|]. split.
  - intros row Hrow Hbad%parse_row_offending.
    repeat (apply elem_of_cons in Hrow as [-> | Hrow]; [discriminate Hbad|]).
    by apply elem_of_nil in Hrow.
  - split; [done|]. split; [discriminate|]. vm_compute. lia.
Defined.


Lemma summary_keys_witness :
  let data := [Obs 1 "food" (Qc_of_Z 10); Obs 2 "rent" (Qc_of_Z 70)] in
  is_Some (future_summary data ["food"; "rent"] (Qc_of_Z 100) 3 !! "food") ∧
  ¬ is_Some (historical_summary data ["food"; "rent"] (Qc_of_Z 100) 2 !! "food").
Proof.
  intros data. split.
  - apply (summary_keys data ["food"; "rent"] (Qc_of_Z 100) 3 "food").
    right. right. split; [by left|].
    exists (Obs 1 "food" (Qc_of_Z 10)). split; [by left | done].
  - intros Hkey.
    apply (summary_keys data ["food"; "rent"] (Qc_of_Z 100) 2 "food") in Hkey
      as [Hk | [Hk | (_ & o & Ho & Hm & Hc)]]; [discriminate Hk..|].
    repeat (apply elem_of_cons in Ho as [-> | Ho]; [discriminate|]).
    by apply elem_of_nil in Ho.
Defined.
